(** * Demo-day notebooks: the code the notebooks define themselves

    The notebooks mostly call into the quantum SDK.  Three pieces of code
    are written out in the notebooks and are embedded here:

    - [Deprecation]: the class [DummyClass] of
      [2022-09-29/3_deprecation_docs.ipynb] (its constructor and the bodies
      of [foo_deprecated] and [bar_with_deprecated_arg]);
    - [WarmStart]: the body of [TrainableModel._choose_initial_point] after
      the warm-start fix, as quoted in
      [2022-03-17/2-fix-vqc-training-with-warm-start.ipynb];
    - [Numpy]: the cells of the same notebook that build the toy labels
      and their one-hot encoding. *)

From Stdlib Require Import ZArith Lia.
From stdpp Require Import base option list strings gmap.

Local Open Scope Z_scope.

(** ** The part of Python the two bodies rely on *)
Module Python.

(** The exceptions the embedded bodies can end with.  [QiskitError] is the
    SDK's error class; the other three are Python's own. *)
Inductive exception : Type :=
| QiskitError (msg : string)
| NameError (name : string)
| IndexError
| TypeError.

(** A call either returns a value or raises. *)
Inductive outcome (A : Type) : Type :=
| Return (v : A)
| Raise (e : exception).
Arguments Return {A} v.
Arguments Raise {A} e.

(** Sequencing: an exception ends the rest of the body. *)
#[export] Instance outcome_bind : MBind outcome := fun A B k m =>
  match m with
  | Return v => k v
  | Raise e => Raise e
  end.

(** [len(o)] for an attribute that holds a list or [None]. *)
Definition len {A : Type} (o : option (list A)) : outcome Z :=
  match o with
  | Some l => Return (Z.of_nat (length l))
  | None => Raise TypeError
  end.

(** [l[i]] on a list: a negative index counts from the end, and an index
    outside [-len(l) <= i < len(l)] raises [IndexError]. *)
Definition list_getitem {A : Type} (l : list A) (i : Z) : outcome A :=
  let n := Z.of_nat (length l) in
  let j := if i <? 0 then i + n else i in
  if (j <? 0) || (n <=? j) then Raise IndexError
  else match l !! Z.to_nat j with
       | Some v => Return v
       | None => Raise IndexError
       end.

(** [o[i]] for an attribute that holds a list or [None]. *)
Definition getitem {A : Type} (o : option (list A)) (i : Z) : outcome A :=
  match o with
  | Some l => list_getitem l i
  | None => Raise TypeError
  end.

(** [raise C(msg)] where [C] is the global name of an SDK error class: the
    name is looked up first, and an unbound name raises [NameError].
    [globals] is the set of names the module namespace binds. *)
Definition raise_global {A : Type} (globals : gset string) (cls : string)
    (exn : string -> exception) (msg : string) : outcome A :=
  if decide (cls ∈ globals) then Raise (exn msg) else Raise (NameError cls).

End Python.

(** ** [3_deprecation_docs.ipynb]: [DummyClass] *)
Module Deprecation.
Import Python.

(** [self.arg1] and [self.arg2]; both default to [None]. *)
Record DummyClass : Type := {
  arg1 : option Z;
  arg2 : option (list Z);
}.

Definition __init__ (a1 : option Z) (a2 : option (list Z)) : DummyClass :=
  {| arg1 := a1; arg2 := a2 |}.

(** The body of [foo_deprecated].  The decorator that wraps it belongs to
    the SDK and is not part of this definition. *)
Definition foo_deprecated (globals : gset string) (self : DummyClass)
    (index_arg2 : Z) : outcome Z :=
  n ← len (arg2 self);
  if n <? index_arg2 then
    raise_global globals "QiskitError" QiskitError "there is an error"
  else
    getitem (arg2 self) index_arg2.

(** The names the notebook's cells bind when run top to bottom: two
    imports, the class, the instance [d], the function [f] and
    [__version__]. *)
Definition notebook_globals : gset string :=
  {[ "deprecate_function"; "deprecate_arguments"; "DummyClass"; "d"; "f";
     "__version__" ]}.

(** [d = DummyClass(1, [1,2])]. *)
Definition d : DummyClass := __init__ (Some 1) (Some [1; 2]).

(** The behaviour of [foo_deprecated] as the specification words it, for an
    instance whose [arg2] is a list [l]: [QiskitError] is raised exactly
    when [len(self.arg2) < index_arg2], and otherwise the call returns
    [self.arg2[index_arg2]]. *)
Definition foo_deprecated_as_specified (globals : gset string)
    (self : DummyClass) (index_arg2 : Z) : Prop :=
  forall l : list Z, arg2 self = Some l ->
    ((exists msg,
        foo_deprecated globals self index_arg2 = Raise (QiskitError msg))
       <-> Z.of_nat (length l) < index_arg2) /\
    (~ Z.of_nat (length l) < index_arg2 ->
       exists v, list_getitem l index_arg2 = Return v /\
                 foo_deprecated globals self index_arg2 = Return v).

(** [o[i]] where the index too may be [None]: subscripting [None], or a
    list with [None], raises [TypeError]. *)
Definition subscript {A : Type} (o : option (list A)) (i : option Z)
    : outcome A :=
  match o, i with
  | Some l, Some i => list_getitem l i
  | _, _ => Raise TypeError
  end.

(** The body of [bar_with_deprecated_arg]; the three keyword arguments
    default to [None], and the result is an [int] or [None].  As for
    [foo_deprecated], the SDK decorator is not part of the definition. *)
Definition bar_with_deprecated_arg (self : DummyClass)
    (if_arg1 index_arg2 other_if_arg1 : option Z) : outcome (option Z) :=
  if bool_decide (other_if_arg1 = arg1 self)
     || bool_decide (if_arg1 = arg1 self)
  then v ← subscript (arg2 self) index_arg2; Return (Some v)
  else Return None.

End Deprecation.

(** ** [2-fix-vqc-training-with-warm-start.ipynb]: the initial point of a fit *)
Module WarmStart.

Section TrainableModel.
(** The entries of a parameter vector (numpy floats); nothing below
    computes with them. *)
Variable scalar : Type.
(** [algorithm_globals.random]: the state of the SDK's global generator,
    and its method [random(size)], which returns the drawn vector and
    leaves the generator advanced. *)
Variable generator : Type.
Variable random : generator -> nat -> list scalar * generator.

(** The result object of [minimize]; the fix reads its field [x], the
    final point of the minimisation. *)
Record OptimizerResult : Type := { x : list scalar }.

Record NeuralNetwork : Type := { num_weights : nat }.

(** The attributes of a [TrainableModel] the method reads and writes. *)
Record TrainableModel : Type := {
  _neural_network : NeuralNetwork;
  _warm_start : bool;
  _fit_result : option OptimizerResult;
  _initial_point : option (list scalar);
}.

(** [self._initial_point = p] *)
Definition set_initial_point (self : TrainableModel)
    (p : option (list scalar)) : TrainableModel :=
  {| _neural_network := _neural_network self;
     _warm_start := _warm_start self;
     _fit_result := _fit_result self;
     _initial_point := p |}.

(** The method after the fix.  It returns [self._initial_point] as it
    stands after the [if]/[elif], together with the updated model and
    generator. *)
Definition _choose_initial_point (self : TrainableModel) (g : generator)
    : option (list scalar) * TrainableModel * generator :=
  let '(self', g') :=
    match _warm_start self, _fit_result self with
    | true, Some r => (set_initial_point self (Some (x r)), g)
    | _, _ =>
        match _initial_point self with
        | None =>
            let '(v, g1) := random g (num_weights (_neural_network self)) in
            (set_initial_point self (Some v), g1)
        | Some _ => (self, g)
        end
    end in
  (_initial_point self', self', g').

End TrainableModel.

Arguments x {scalar} _.
Arguments Build_OptimizerResult {scalar} _.
Arguments _neural_network {scalar} _.
Arguments _warm_start {scalar} _.
Arguments _fit_result {scalar} _.
Arguments _initial_point {scalar} _.
Arguments Build_TrainableModel {scalar} _ _ _ _.
Arguments set_initial_point {scalar} _ _.
Arguments _choose_initial_point {scalar generator} _ _ _.

(** A generator for examples: a counter that hands out consecutive
    integers. *)
Definition counter_random (g : nat) (size : nat) : list Z * nat :=
  (Z.of_nat <$> seq g size, (g + size)%nat).

(** A warm-started model with three weights before its first fit, and the
    same model holding the result [r] of a fit. *)
Definition fresh_model : TrainableModel Z :=
  {| _neural_network := {| num_weights := 3 |};
     _warm_start := true;
     _fit_result := None;
     _initial_point := None |}.

Definition fitted_model (r : OptimizerResult Z) : TrainableModel Z :=
  {| _neural_network := {| num_weights := 3 |};
     _warm_start := true;
     _fit_result := Some r;
     _initial_point := Some [0; 1; 2] |}.

End WarmStart.

(** ** [2-fix-vqc-training-with-warm-start.ipynb]: the toy labels and their
    one-hot encoding *)
Module Numpy.

(** The errors the numpy calls of the two cells can end with. *)
Inductive error : Type :=
| ValueError
| IndexError.

Inductive result (A : Type) : Type :=
| Ok (a : A)
| Err (e : error).
Arguments Ok {A} a.
Arguments Err {A} e.

#[export] Instance result_bind : MBind result := fun A B k m =>
  match m with
  | Ok a => k a
  | Err e => Err e
  end.

(** Arithmetic in numpy's default integer type, a signed integer of [bits]
    bits (64 on Linux and macOS): the result wraps around. *)
Definition wrap (bits z : Z) : Z :=
  (z + 2 ^ (bits - 1)) mod 2 ^ bits - 2 ^ (bits - 1).

(** [np.tile(a, reps)] for a one-dimensional [a]. *)
Definition tile {A : Type} (a : list A) (reps : nat) : list A :=
  mjoin (replicate reps a).

(** [a.max()]: an empty array has no maximum. *)
Definition amax (a : list Z) : result Z :=
  match a with
  | [] => Err ValueError
  | c :: rest => Ok (foldl Z.max c rest)
  end.

(** [np.zeros((rows, cols))], a list of rows; a negative dimension is
    refused.  The entries [0.0] and [1.0] of the array are written [0] and
    [1]. *)
Definition zeros (rows : nat) (cols : Z) : result (list (list Z)) :=
  if cols <? 0 then Err ValueError
  else Ok (replicate rows (replicate (Z.to_nat cols) 0)).

(** [np.arange(n)] *)
Definition arange (n : nat) : list Z := Z.of_nat <$> seq 0 n.

(** An index into an axis of [size] entries: a negative index counts from
    the end, and an index outside [-size <= i < size] is an [IndexError]. *)
Definition axis_index (size : nat) (i : Z) : result nat :=
  let n := Z.of_nat size in
  let j := if i <? 0 then i + n else i in
  if (j <? 0) || (n <=? j) then Err IndexError else Ok (Z.to_nat j).

(** [a[r, c] = v] on an array whose rows have [ncols] entries. *)
Definition setitem (a : list (list Z)) (ncols : nat) (r c v : Z)
    : result (list (list Z)) :=
  i ← axis_index (length a) r;
  j ← axis_index ncols c;
  Ok (alter (<[j := v]>) i a).

(** [a[rows, cols] = v] for two index arrays, given as the list of their
    pairs. *)
Fixpoint setitems (a : list (list Z)) (ncols : nat) (idx : list (Z * Z))
    (v : Z) : result (list (list Z)) :=
  match idx with
  | [] => Ok a
  | (r, c) :: rest => a' ← setitem a ncols r c v; setitems a' ncols rest v
  end.

(** The encoding cell:
    [onehot_target = np.zeros((target.size, int(target.max() + 1)))] and
    [onehot_target[np.arange(target.size), target.astype(int)] = 1]. *)
Definition one_hot (bits : Z) (target : list Z) : result (list (list Z)) :=
  mx ← amax target;
  let ncols := wrap bits (mx + 1) in
  onehot_target ← zeros (length target) ncols;
  setitems onehot_target (Z.to_nat ncols)
    (zip (arange (length target)) target) 1.

(** The labels of the notebook: [np.tile([0,0,0,0,0,1,1,1,1,1], 2)]. *)
Definition target : list Z := tile [0; 0; 0; 0; 0; 1; 1; 1; 1; 1] 2.

(** The row with a single [1], at column [c], among [ncols] entries. *)
Definition unit_row (ncols : nat) (c : nat) : list Z :=
  <[c := 1]> (replicate ncols 0).

End Numpy.

(** * Properties *)

(** ** Python list indexing *)
Module PythonFacts.
Import Python.

(** A valid index reads the element at [i mod len(l)]. *)
Lemma list_getitem_valid {A : Type} (l : list A) (i : Z) :
  - Z.of_nat (length l) <= i < Z.of_nat (length l) ->
  exists v, list_getitem l i = Return v /\
            l !! Z.to_nat (i mod Z.of_nat (length l)) = Some v.
Proof.
  intros Hi. unfold list_getitem.
  set (n := Z.of_nat (length l)) in *.
  assert (Hj : (if i <? 0 then i + n else i) = i mod n).
  { destruct (Z.ltb_spec i 0).
    - rewrite <- (Z.mod_small (i + n) n) by lia.
      rewrite <- (Z.mod_add i 1 n) by lia. f_equal. lia.
    - symmetry. apply Z.mod_small. lia. }
  rewrite Hj.
  assert (Hr : 0 <= i mod n < n) by (apply Z.mod_pos_bound; lia).
  destruct (Z.ltb_spec (i mod n) 0); [lia|].
  destruct (Z.leb_spec n (i mod n)); [lia|]. simpl.
  destruct (l !! Z.to_nat (i mod n)) as [v|] eqn:Hv; [eauto|].
  apply lookup_ge_None in Hv. subst n. lia.
Qed.

(** Any other index raises [IndexError]. *)
Lemma list_getitem_invalid {A : Type} (l : list A) (i : Z) :
  i < - Z.of_nat (length l) \/ Z.of_nat (length l) <= i ->
  list_getitem l i = Raise IndexError.
Proof.
  intros Hi. unfold list_getitem.
  set (n := Z.of_nat (length l)) in *.
  destruct (Z.ltb_spec i 0).
  - destruct (Z.ltb_spec (i + n) 0); [reflexivity | lia].
  - destruct (Z.ltb_spec i 0); [lia|].
    destruct (Z.leb_spec n i); [reflexivity | lia].
Qed.

End PythonFacts.

(** ** [DummyClass.foo_deprecated] *)
Module DeprecationFacts.
Import Python PythonFacts Deprecation.

(** With [arg2] a list, the body is the guard followed by the indexing. *)
Lemma foo_deprecated_unfold (globals : gset string) (self : DummyClass)
    (l : list Z) (i : Z) :
  arg2 self = Some l ->
  foo_deprecated globals self i =
    if Z.of_nat (length l) <? i
    then raise_global globals "QiskitError" QiskitError "there is an error"
    else list_getitem l i.
Proof. intros H. unfold foo_deprecated. rewrite H. reflexivity. Qed.

Lemma raise_global_bound {A : Type} (globals : gset string) (cls : string)
    (exn : string -> exception) (msg : string) :
  cls ∈ globals -> raise_global (A := A) globals cls exn msg = Raise (exn msg).
Proof. intros H. unfold raise_global. by rewrite decide_True. Qed.

Lemma raise_global_unbound {A : Type} (globals : gset string) (cls : string)
    (exn : string -> exception) (msg : string) :
  cls ∉ globals ->
  raise_global (A := A) globals cls exn msg = Raise (NameError cls).
Proof. intros H. unfold raise_global. by rewrite decide_False. Qed.

(** The notebook's call [d.foo_deprecated(0)] returns [1]. *)
Example foo_deprecated_d_0 : foo_deprecated notebook_globals d 0 = Return 1.
Proof. reflexivity. Qed.

(** The index equal to the length passes the guard and the indexing
    raises [IndexError]. *)
Lemma foo_deprecated_index_len (globals : gset string) (self : DummyClass)
    (l : list Z) :
  arg2 self = Some l ->
  foo_deprecated globals self (Z.of_nat (length l)) = Raise IndexError.
Proof.
  intros H. rewrite (foo_deprecated_unfold _ _ l) by done.
  rewrite Z.ltb_irrefl. apply list_getitem_invalid. lia.
Qed.

(** An index below [-len(self.arg2)] passes the guard too. *)
Lemma foo_deprecated_index_low (globals : gset string) (self : DummyClass)
    (l : list Z) (i : Z) :
  arg2 self = Some l -> i < - Z.of_nat (length l) ->
  foo_deprecated globals self i = Raise IndexError.
Proof.
  intros H Hi. rewrite (foo_deprecated_unfold _ _ l) by done.
  destruct (Z.ltb_spec (Z.of_nat (length l)) i); [lia|].
  apply list_getitem_invalid. lia.
Qed.

(** The notebook never binds the name [QiskitError]: there the guarded
    branch ends in [NameError]. *)
Lemma foo_deprecated_unbound_name (self : DummyClass) (l : list Z) (i : Z) :
  arg2 self = Some l -> Z.of_nat (length l) < i ->
  foo_deprecated notebook_globals self i = Raise (NameError "QiskitError").
Proof.
  intros H Hi. rewrite (foo_deprecated_unfold _ _ l) by done.
  destruct (Z.ltb_spec (Z.of_nat (length l)) i); [|lia].
  apply raise_global_unbound. by vm_compute.
Qed.

(** On the notebook's instance the guarded branch is reached from index [3]
    on, and ends in [NameError] there. *)
Example foo_deprecated_d_3 :
  foo_deprecated notebook_globals d 3 = Raise (NameError "QiskitError").
Proof. reflexivity. Qed.

(** C5, as stated, fails on the notebook's own instance
    [d = DummyClass(1, [1,2])] at index [2]: the guard [2 < 2] is false, so
    no [QiskitError] is raised, yet nothing is returned, because [d.arg2[2]]
    raises [IndexError]. *)
Lemma foo_deprecated_as_specified_fails :
  ~ foo_deprecated_as_specified notebook_globals d 2 /\
  foo_deprecated notebook_globals d 2 = Raise IndexError.
Proof.
  split; [|reflexivity].
  intros Hspec. destruct (Hspec [1; 2] eq_refl) as [_ Hret].
  destruct Hret as (v & Hv & _); [simpl; lia|]. discriminate Hv.
Qed.

(** C5, amended.  For an instance whose [arg2] is the list [l] and any
    integer index [i]: [foo_deprecated] raises [QiskitError] only if
    [len(l) < i]; where the global name [QiskitError] is bound it raises
    [QiskitError("there is an error")] whenever [len(l) < i]; and for a
    valid index, [-len(l) <= i < len(l)], it returns [l[i]], the element
    at position [i mod len(l)]. *)
Theorem foo_deprecated_spec (globals : gset string) (self : DummyClass)
    (l : list Z) (i : Z) :
  arg2 self = Some l ->
  (forall msg, foo_deprecated globals self i = Raise (QiskitError msg) ->
               Z.of_nat (length l) < i) /\
  ("QiskitError" ∈ globals -> Z.of_nat (length l) < i ->
     foo_deprecated globals self i = Raise (QiskitError "there is an error")) /\
  (- Z.of_nat (length l) <= i < Z.of_nat (length l) ->
     exists v, foo_deprecated globals self i = Return v /\
               list_getitem l i = Return v /\
               l !! Z.to_nat (i mod Z.of_nat (length l)) = Some v).
Proof.
  intros H. rewrite (foo_deprecated_unfold globals self l i H).
  destruct (Z.ltb_spec (Z.of_nat (length l)) i) as [Hlt|Hge].
  - split; [done|]. split; [|lia].
    intros Hin _. by apply raise_global_bound.
  - split; [|split; [lia|]].
    + intros msg Hraise.
      destruct (Z_lt_le_dec i (- Z.of_nat (length l))) as [Hlow|Hlow].
      * rewrite list_getitem_invalid in Hraise by lia. discriminate.
      * destruct (Z.eq_dec i (Z.of_nat (length l))) as [->|Hne].
        { rewrite list_getitem_invalid in Hraise by lia. discriminate. }
        destruct (list_getitem_valid l i) as (v & Hv & _); [lia|].
        rewrite Hv in Hraise. discriminate.
    + intros Hi. destruct (list_getitem_valid l i Hi) as (v & Hv & Hl). eauto.
Qed.

(** The amended statement at the notebook's instance, with the SDK's error
    class imported, at the last element's negative index. *)
Lemma foo_deprecated_spec_witness :
  arg2 d = Some [1; 2] /\
  ((forall msg, foo_deprecated ({["QiskitError"]} ∪ notebook_globals) d (-1)
                  = Raise (QiskitError msg) ->
                Z.of_nat (length [1; 2]) < -1) /\
   ("QiskitError" ∈ ({["QiskitError"]} ∪ notebook_globals : gset string) ->
      Z.of_nat (length [1; 2]) < -1 ->
      foo_deprecated ({["QiskitError"]} ∪ notebook_globals) d (-1)
        = Raise (QiskitError "there is an error")) /\
   (- Z.of_nat (length [1; 2]) <= -1 < Z.of_nat (length [1; 2]) ->
      exists v, foo_deprecated ({["QiskitError"]} ∪ notebook_globals) d (-1)
                  = Return v /\
                list_getitem [1; 2] (-1) = Return v /\
                [1; 2] !! Z.to_nat (-1 mod Z.of_nat (length [1; 2])) = Some v)).
Proof.
  split; [reflexivity|].
  exact (foo_deprecated_spec ({["QiskitError"]} ∪ notebook_globals) d [1; 2]
           (-1) eq_refl).
Defined.

End DeprecationFacts.

(** ** [TrainableModel._choose_initial_point] *)
Module WarmStartFacts.
Import WarmStart.

Section ChooseInitialPoint.
Context {scalar generator : Type}.
Variable random : generator -> nat -> list scalar * generator.
Implicit Types (self : TrainableModel scalar) (g : generator).

(** The three paths through the [if]/[elif]. *)
Lemma choose_warm self g (r : OptimizerResult scalar) :
  _warm_start self = true -> _fit_result self = Some r ->
  _choose_initial_point random self g
  = (Some (x r), set_initial_point self (Some (x r)), g).
Proof. intros Hw Hr. unfold _choose_initial_point. by rewrite Hw, Hr. Qed.

Lemma choose_drawn self g :
  _warm_start self = false \/ _fit_result self = None ->
  _initial_point self = None ->
  _choose_initial_point random self g
  = let v := (random g (num_weights (_neural_network self))).1 in
    (Some v, set_initial_point self (Some v),
     (random g (num_weights (_neural_network self))).2).
Proof.
  intros Hcold Hp. unfold _choose_initial_point. rewrite Hp.
  destruct (random g (num_weights (_neural_network self))) as [v g1].
  destruct Hcold as [-> | ->]; [done|]. by destruct (_warm_start self).
Qed.

Lemma choose_kept self g (p : list scalar) :
  _warm_start self = false \/ _fit_result self = None ->
  _initial_point self = Some p ->
  _choose_initial_point random self g = (Some p, self, g).
Proof.
  intros Hcold Hp. unfold _choose_initial_point. rewrite Hp.
  destruct Hcold as [-> | ->]; [by rewrite Hp|].
  destruct (_warm_start self); by rewrite Hp.
Qed.

(** Exactly one of the three paths applies. *)
Lemma choose_cases self :
  (_warm_start self = true /\ exists r, _fit_result self = Some r) \/
  ((_warm_start self = false \/ _fit_result self = None) /\
   (_initial_point self = None \/ exists p, _initial_point self = Some p)).
Proof.
  destruct (_warm_start self), (_fit_result self) as [r|],
    (_initial_point self) as [p|]; eauto 10.
Qed.

End ChooseInitialPoint.

Lemma counter_random_shape (g size : nat) :
  length (counter_random g size).1 = size.
Proof. unfold counter_random. simpl. by rewrite length_fmap, length_seq. Qed.

(** C3.  With a generator whose [random(size)] returns [size] entries,
    [_choose_initial_point] returns the point it leaves in
    [self._initial_point], which is never [None], and assigns no other
    attribute.  If [warm_start] is on and a fit result [r] is stored, that
    point is [r.x] and the generator is not used: the next fit of a
    warm-started model starts from the previous fit's final point.
    Otherwise, if [self._initial_point] is [None], the point is the vector
    drawn by [random(num_weights)], of length [num_weights]; and if it is
    already set, it is returned as it is. *)
Theorem choose_initial_point_spec {scalar generator : Type}
    (random : generator -> nat -> list scalar * generator)
    (random_shape : forall g size, length (random g size).1 = size)
    (self : TrainableModel scalar) (g : generator) :
  let '(ret, self', g') := _choose_initial_point random self g in
  ret = _initial_point self' /\ is_Some ret /\
  (_neural_network self' = _neural_network self /\
   _warm_start self' = _warm_start self /\
   _fit_result self' = _fit_result self) /\
  (forall r, _warm_start self = true -> _fit_result self = Some r ->
             ret = Some (x r) /\ g' = g) /\
  (_warm_start self = false \/ _fit_result self = None ->
   _initial_point self = None ->
   exists v, ret = Some v /\
             length v = num_weights (_neural_network self) /\
             (v, g') = random g (num_weights (_neural_network self))) /\
  (forall p, _warm_start self = false \/ _fit_result self = None ->
             _initial_point self = Some p ->
             ret = Some p /\ self' = self /\ g' = g).
Proof.
  destruct (choose_cases self) as [[Hw [r Hr]] | [Hcold [Hp | [p Hp]]]].
  - rewrite (choose_warm random self g r Hw Hr).
    split; [done|]. split; [by eexists|]. split; [done|].
    split; [|split].
    + intros r' _ Hr'. by simplify_eq.
    + intros [Hf | Hn] _; congruence.
    + intros p [Hf | Hn] _; congruence.
  - rewrite (choose_drawn random self g Hcold Hp). cbv zeta.
    split; [done|]. split; [by eexists|]. split; [done|].
    split; [|split].
    + intros r Hw Hr. destruct Hcold; congruence.
    + intros _ _. eexists. split; [done|]. split; [apply random_shape|].
      by destruct (random g (num_weights (_neural_network self))).
    + intros p _ Hp'. congruence.
  - rewrite (choose_kept random self g p Hcold Hp).
    split; [done|]. split; [by eexists|]. split; [done|].
    split; [|split].
    + intros r Hw Hr. destruct Hcold; congruence.
    + intros _ Hn. congruence.
    + intros p' _ Hp'. by simplify_eq.
Qed.

(** The statement at two concrete models with the counter generator: the
    first fit of [fresh_model] draws three entries, and a model that holds
    a fit result with final point [[5; 7; 9]] starts from that point. *)
Lemma choose_initial_point_spec_witness :
  (forall g size, length (counter_random g size).1 = size) /\
  (_choose_initial_point counter_random fresh_model 4%nat).1.1
    = Some [4; 5; 6] /\
  (_choose_initial_point counter_random
     (fitted_model {| x := [5; 7; 9] |}) 4%nat).1.1 = Some [5; 7; 9].
Proof.
  split; [exact counter_random_shape|]. split.
  - pose proof (choose_initial_point_spec counter_random counter_random_shape
                  fresh_model 4%nat) as H.
    destruct (_choose_initial_point counter_random fresh_model 4%nat)
      as [[ret self'] g'] eqn:E.
    destruct H as (_ & _ & _ & _ & Hdrawn & _).
    destruct (Hdrawn (or_intror eq_refl) eq_refl) as (v & -> & _ & Hv).
    vm_compute in Hv. by injection Hv as -> _.
  - pose proof (choose_initial_point_spec counter_random counter_random_shape
                  (fitted_model {| x := [5; 7; 9] |}) 4%nat) as H.
    destruct (_choose_initial_point counter_random
                (fitted_model {| x := [5; 7; 9] |}) 4%nat)
      as [[ret self'] g'] eqn:E.
    destruct H as (_ & _ & _ & Hwarm & _).
    destruct (Hwarm _ eq_refl eq_refl) as [-> _]. reflexivity.
Defined.

End WarmStartFacts.

(** ** [DummyClass]: where the two methods return, and where they raise *)
Module DummyClassFacts.
Import Python PythonFacts Deprecation.

(** The guard and the indexing of [foo_deprecated], with [arg2] a list. *)
Lemma foo_deprecated_cases (globals : gset string) (self : DummyClass)
    (l : list Z) (i : Z) :
  arg2 self = Some l ->
  (Z.of_nat (length l) < i /\
   foo_deprecated globals self i
   = raise_global globals "QiskitError" QiskitError "there is an error") \/
  (i <= Z.of_nat (length l) /\ foo_deprecated globals self i = list_getitem l i).
Proof.
  intros H. unfold foo_deprecated. rewrite H. simpl.
  unfold mbind, outcome_bind.
  destruct (Z.ltb_spec (Z.of_nat (length l)) i); [left | right]; done.
Qed.

Lemma raise_global_cases {A : Type} (globals : gset string) (cls msg : string)
    (exn : string -> exception) :
  ((cls ∈ globals) /\
   raise_global (A := A) globals cls exn msg = Raise (exn msg)) \/
  ((cls ∉ globals) /\
   raise_global (A := A) globals cls exn msg = Raise (NameError cls)).
Proof. unfold raise_global. case_decide; [left | right]; done. Qed.

Lemma list_getitem_cases {A : Type} (l : list A) (i : Z) :
  (- Z.of_nat (length l) <= i < Z.of_nat (length l) /\
   exists v, list_getitem l i = Return v) \/
  ((i < - Z.of_nat (length l) \/ Z.of_nat (length l) <= i) /\
   list_getitem l i = Raise IndexError).
Proof.
  destruct (Z_lt_le_dec i (- Z.of_nat (length l))) as [Hlo|Hlo].
  - right. split; [lia|]. apply list_getitem_invalid. lia.
  - destruct (Z_lt_le_dec i (Z.of_nat (length l))) as [Hhi|Hhi].
    + left. split; [lia|].
      destruct (list_getitem_valid l i) as (v & Hv & _); [lia | eauto].
    + right. split; [lia|]. apply list_getitem_invalid. lia.
Qed.

(** X1.  With [arg2] a list, [foo_deprecated] returns a value exactly for
    the valid indices [-len(arg2) <= i < len(arg2)]; in particular it
    returns for no index when the list is empty. *)
Theorem foo_deprecated_returns_iff (globals : gset string)
    (self : DummyClass) (l : list Z) (i : Z) :
  arg2 self = Some l ->
  (exists v, foo_deprecated globals self i = Return v)
  <-> - Z.of_nat (length l) <= i < Z.of_nat (length l).
Proof.
  intros H. destruct (foo_deprecated_cases globals self l i H) as [[Hi ->]|[Hi ->]].
  - split; [|lia]. intros [v Hv].
    destruct (raise_global_cases (A := Z) globals "QiskitError"
                "there is an error" QiskitError) as [[_ E]|[_ E]];
      rewrite E in Hv; discriminate.
  - destruct (list_getitem_cases l i) as [[Hv Hr]|[Hv Hr]]; [done|].
    split; [|lia]. intros [v Hv']. rewrite Hr in Hv'. discriminate.
Qed.

Lemma foo_deprecated_returns_iff_witness :
  arg2 d = Some [1; 2] /\
  ((exists v, foo_deprecated notebook_globals d (-2) = Return v)
   <-> - Z.of_nat (length [1; 2]) <= -2 < Z.of_nat (length [1; 2])).
Proof.
  split; [reflexivity|].
  exact (foo_deprecated_returns_iff notebook_globals d [1; 2] (-2) eq_refl).
Defined.

(** X2.  With [arg2] a list, [foo_deprecated] raises [IndexError] exactly
    when the index equals [len(arg2)] or lies below [-len(arg2)]: the guard
    [len(arg2) < i] lets these two ranges through to the indexing. *)
Theorem foo_deprecated_IndexError_iff (globals : gset string)
    (self : DummyClass) (l : list Z) (i : Z) :
  arg2 self = Some l ->
  foo_deprecated globals self i = Raise IndexError
  <-> i = Z.of_nat (length l) \/ i < - Z.of_nat (length l).
Proof.
  intros H. destruct (foo_deprecated_cases globals self l i H) as [[Hi ->]|[Hi ->]].
  - split; [|lia]. intros Hv.
    destruct (raise_global_cases (A := Z) globals "QiskitError"
                "there is an error" QiskitError) as [[_ E]|[_ E]];
      rewrite E in Hv; discriminate.
  - destruct (list_getitem_cases l i) as [[Hv [v Hr]]|[Hv Hr]].
    + rewrite Hr. split; [discriminate | lia].
    + split; [lia | done].
Qed.

Lemma foo_deprecated_IndexError_iff_witness :
  arg2 d = Some [1; 2] /\
  (foo_deprecated notebook_globals d 2 = Raise IndexError
   <-> 2 = Z.of_nat (length [1; 2]) \/ 2 < - Z.of_nat (length [1; 2])).
Proof.
  split; [reflexivity|].
  exact (foo_deprecated_IndexError_iff notebook_globals d [1; 2] 2 eq_refl).
Defined.

(** X3.  With [arg2] a list, [foo_deprecated] ends in [NameError] exactly
    when the guard fires, [len(arg2) < i], in a namespace that does not
    bind [QiskitError]; the name it reports is [QiskitError]. *)
Theorem foo_deprecated_NameError_iff (globals : gset string)
    (self : DummyClass) (l : list Z) (i : Z) :
  arg2 self = Some l ->
  forall name : string,
    foo_deprecated globals self i = Raise (NameError name)
    <-> Z.of_nat (length l) < i /\ ("QiskitError" ∉ globals)
        /\ name = "QiskitError".
Proof.
  intros H name.
  destruct (foo_deprecated_cases globals self l i H) as [[Hi ->]|[Hi ->]].
  - destruct (raise_global_cases (A := Z) globals "QiskitError"
                "there is an error" QiskitError) as [[Hin E]|[Hin E]];
      rewrite E.
    + split; [discriminate|]. intros (_ & Hn & _). done.
    + split.
      * intros [= <-]. done.
      * intros (_ & _ & ->). done.
  - split; [|lia]. intros Hv.
    destruct (list_getitem_cases l i) as [[_ [v Hr]]|[_ Hr]];
      rewrite Hr in Hv; discriminate.
Qed.

Lemma foo_deprecated_NameError_iff_witness :
  arg2 d = Some [1; 2] /\
  (foo_deprecated notebook_globals d 5 = Raise (NameError "QiskitError")
   <-> Z.of_nat (length [1; 2]) < 5 /\ ("QiskitError" ∉ notebook_globals)
       /\ "QiskitError" = "QiskitError").
Proof.
  split; [reflexivity|].
  exact (foo_deprecated_NameError_iff notebook_globals d [1; 2] 5 eq_refl
           "QiskitError").
Defined.

(** X14.  [foo_deprecated] raises [TypeError] exactly when [self.arg2] is
    [None], as on an instance built with the constructor's defaults: the
    length of [None] is taken before the index is looked at. *)
Theorem foo_deprecated_TypeError_iff (globals : gset string)
    (self : DummyClass) (i : Z) :
  foo_deprecated globals self i = Raise TypeError <-> arg2 self = None.
Proof.
  destruct (arg2 self) as [l|] eqn:H.
  - split; [|discriminate]. intros Hraise.
    destruct (foo_deprecated_cases globals self l i H) as [[_ E]|[_ E]];
      rewrite E in Hraise.
    + destruct (raise_global_cases (A := Z) globals "QiskitError"
                  "there is an error" QiskitError) as [[_ E']|[_ E']];
        rewrite E' in Hraise; discriminate.
    + destruct (list_getitem_cases l i) as [[_ [v Hv]]|[_ Hv]];
        rewrite Hv in Hraise; discriminate.
  - split; [done|]. intros _. unfold foo_deprecated. by rewrite H.
Qed.

(** The two paths of [bar_with_deprecated_arg]. *)
Lemma bar_hit (self : DummyClass) (a i b : option Z) :
  b = arg1 self \/ a = arg1 self ->
  bar_with_deprecated_arg self a i b
  = (v ← subscript (arg2 self) i; Return (Some v)).
Proof.
  intros Hhit. unfold bar_with_deprecated_arg.
  destruct Hhit as [-> | ->].
  - by rewrite bool_decide_eq_true_2.
  - rewrite (bool_decide_eq_true_2 (arg1 self = arg1 self)) by done.
    by rewrite orb_true_r.
Qed.

Lemma bar_miss (self : DummyClass) (a i b : option Z) :
  ~ (b = arg1 self \/ a = arg1 self) ->
  bar_with_deprecated_arg self a i b = Return None.
Proof.
  intros Hmiss. unfold bar_with_deprecated_arg.
  rewrite !bool_decide_eq_false_2; [done | tauto | tauto].
Qed.

Lemma bind_Return_Some_inv {A : Type} (m : outcome A) (r : outcome (option A)) :
  r = (v ← m; Return (Some v)) ->
  (forall e, r = Raise e <-> m = Raise e) /\
  (forall v, r = Return (Some v) <-> m = Return v) /\
  r <> Return None.
Proof.
  intros ->. destruct m as [v|e]; simpl; unfold mbind, outcome_bind.
  - split; [|split]; [intros e | intros v' | ]; [split; discriminate | | discriminate].
    split; intros [= ->]; done.
  - split; [|split]; [intros e' | intros v' | ]; [ | split; discriminate | discriminate].
    split; intros [= ->]; done.
Qed.

(** X4.  The four outcomes of [bar_with_deprecated_arg].  It returns
    [None] exactly when neither keyword equals [self.arg1]; when one does,
    it raises [TypeError] exactly if [self.arg2] or [index_arg2] is [None],
    raises [IndexError] exactly if the index is outside
    [-len(arg2) <= k < len(arg2)], and returns [v] exactly if [v] is the
    element of [arg2] at position [k mod len(arg2)] for a valid [k]. *)
Theorem bar_with_deprecated_arg_outcomes (self : DummyClass)
    (if_arg1 index_arg2 other_if_arg1 : option Z) :
  let hit := other_if_arg1 = arg1 self \/ if_arg1 = arg1 self in
  let res := bar_with_deprecated_arg self if_arg1 index_arg2 other_if_arg1 in
  (res = Return None <-> ~ hit) /\
  (res = Raise TypeError <-> hit /\ (arg2 self = None \/ index_arg2 = None)) /\
  (res = Raise IndexError <->
     hit /\ exists l k, arg2 self = Some l /\ index_arg2 = Some k /\
                        (k < - Z.of_nat (length l) \/ Z.of_nat (length l) <= k)) /\
  (forall v, res = Return (Some v) <->
     hit /\ exists l k, arg2 self = Some l /\ index_arg2 = Some k /\
                        - Z.of_nat (length l) <= k < Z.of_nat (length l) /\
                        l !! Z.to_nat (k mod Z.of_nat (length l)) = Some v).
Proof.
  intros hit res.
  destruct (decide hit) as [Hhit|Hmiss].
  2:{ subst res. rewrite (bar_miss _ _ _ _ Hmiss).
      split; [done|]. split; [split; [discriminate | tauto]|].
      split; [split; [discriminate | tauto]|].
      intros v. split; [discriminate | tauto]. }
  destruct (bind_Return_Some_inv _ res (bar_hit self _ index_arg2 _ Hhit))
    as (Hraise & Hret & Hnone).
  split; [split; [done | tauto]|].
  rewrite Hraise, Hraise. setoid_rewrite Hret. clear Hraise Hret Hnone res.
  destruct (arg2 self) as [l|], index_arg2 as [k|]; simpl.
  2-4: split; [split; [tauto | done]|];
       (split; [split; [discriminate | intros (_ & l' & k' & ? & ? & _); done]|]);
       intros v; (split; [discriminate | intros (_ & l' & k' & ? & ? & _); done]).
  destruct (list_getitem_cases l k) as [[Hk [w Hw]]|[Hk Hw]]; rewrite Hw.
  - split; [split; [discriminate | intros [_ [?|?]]; done]|].
    split.
    { split; [discriminate|]. intros (_ & l' & k' & [= <-] & [= <-] & ?). lia. }
    intros v. destruct (list_getitem_valid l k Hk) as (w' & Hw' & Hl).
    rewrite Hw in Hw'. injection Hw' as <-. split.
    + intros [= <-]. split; [done|]. by exists l, k.
    + intros (_ & l' & k' & [= <-] & [= <-] & _ & Hl'). congruence.
  - split; [split; [discriminate | intros [_ [?|?]]; done]|].
    split.
    { split; [|done]. intros _. split; [done|]. exists l, k. split_and!; [done..|lia]. }
    intros v. split; [discriminate|].
    intros (_ & l' & k' & [= <-] & [= <-] & ? & _). lia.
Qed.

(** X5.  The deprecated keyword [if_arg1] and its replacement
    [other_if_arg1] are interchangeable: swapping the two values never
    changes the outcome. *)
Theorem bar_with_deprecated_arg_swap (self : DummyClass)
    (if_arg1 index_arg2 other_if_arg1 : option Z) :
  bar_with_deprecated_arg self if_arg1 index_arg2 other_if_arg1
  = bar_with_deprecated_arg self other_if_arg1 index_arg2 if_arg1.
Proof.
  destruct (decide (other_if_arg1 = arg1 self \/ if_arg1 = arg1 self))
    as [Hhit|Hmiss].
  - rewrite (bar_hit _ _ _ _ Hhit). symmetry. apply bar_hit. tauto.
  - rewrite (bar_miss _ _ _ _ Hmiss). symmetry. apply bar_miss. tauto.
Qed.



End DummyClassFacts.

(** ** [_choose_initial_point]: calling it again *)
Module InitialPointFacts.
Import WarmStart WarmStartFacts.

Lemma set_initial_point_twice {scalar : Type} (self : TrainableModel scalar)
    (p q : option (list scalar)) :
  set_initial_point (set_initial_point self p) q = set_initial_point self q.
Proof. reflexivity. Qed.

(** X7.  [_choose_initial_point] settles after one call: called again on
    the model and generator it left, it returns the same point, leaves the
    model as it is and draws nothing from the generator.  So the random
    draw happens at most once, however often the point is asked for. *)
Theorem choose_initial_point_again {scalar generator : Type}
    (random : generator -> nat -> list scalar * generator)
    (self : TrainableModel scalar) (g : generator) :
  let '(ret, self', g') := _choose_initial_point random self g in
  _choose_initial_point random self' g' = (ret, self', g').
Proof.
  destruct (choose_cases self) as [[Hw [r Hr]] | [Hcold [Hp | [p Hp]]]].
  - rewrite (choose_warm random self g r Hw Hr). cbv beta iota.
    rewrite (choose_warm random _ g r) by done.
    by rewrite set_initial_point_twice.
  - rewrite (choose_drawn random self g Hcold Hp). cbv beta iota zeta.
    by rewrite (choose_kept random _ _
                  (random g (num_weights (_neural_network self))).1).
  - rewrite (choose_kept random self g p Hcold Hp). cbv beta iota.
    apply (choose_kept random self g p Hcold Hp).
Qed.

End InitialPointFacts.

(** ** The one-hot encoding of the labels *)
Module NumpyFacts.
Import Numpy.

Lemma wrap_small (bits z : Z) :
  - 2 ^ (bits - 1) <= z < 2 ^ (bits - 1) -> wrap bits z = z.
Proof.
  intros Hz. unfold wrap.
  assert (Hb : 0 < bits).
  { destruct (Z_lt_le_dec 0 bits) as [|Hle]; [done|].
    rewrite Z.pow_neg_r in Hz by lia. lia. }
  assert (Hp : 2 ^ bits = 2 * 2 ^ (bits - 1)).
  { rewrite <- Z.pow_succ_r by lia. f_equal. lia. }
  rewrite Z.mod_small by lia. lia.
Qed.

(** The maximum is one of the entries and bounds them all. *)
Lemma foldl_max_spec (rest : list Z) (c : Z) :
  (foldl Z.max c rest = c \/ foldl Z.max c rest ∈ rest) /\
  c <= foldl Z.max c rest /\
  Forall (fun y => y <= foldl Z.max c rest) rest.
Proof.
  revert c. induction rest as [|y rest IH]; intros c; simpl.
  - split; [by left|]. split; [lia | constructor].
  - destruct (IH (Z.max c y)) as (Hin & Hge & Hall).
    split; [|split].
    + destruct Hin as [Heq | Hin]; [|right; by right].
      rewrite Heq. destruct (Z.max_spec c y) as [[_ ->] | [_ ->]];
        [right; by left | by left].
    + lia.
    + constructor; [lia | done].
Qed.

Lemma amax_spec (a : list Z) (mx : Z) :
  amax a = Ok mx -> mx ∈ a /\ Forall (fun y => y <= mx) a.
Proof.
  destruct a as [|c rest]; [discriminate|]. intros [= <-].
  destruct (foldl_max_spec rest c) as (Hin & Hge & Hall).
  split; [|by constructor].
  destruct Hin as [-> | Hin]; [by left | by right].
Qed.

Lemma amax_nonempty (a : list Z) : a <> [] -> exists mx, amax a = Ok mx.
Proof. destruct a; [done | eauto]. Qed.

(** Two arrays with the same entries up to order and repetition have the
    same maximum. *)
Lemma amax_unique (a b : list Z) (mx my : Z) :
  amax a = Ok mx -> amax b = Ok my ->
  (forall y, y ∈ a <-> y ∈ b) -> mx = my.
Proof.
  intros Ha Hb Hab.
  destruct (amax_spec a mx Ha) as [Hina Halla].
  destruct (amax_spec b my Hb) as [Hinb Hallb].
  rewrite Forall_forall in Halla, Hallb.
  apply Hab in Hina. apply Hab in Hinb.
  specialize (Halla _ Hinb). specialize (Hallb _ Hina). lia.
Qed.

Lemma axis_index_valid (size : nat) (i : Z) :
  - Z.of_nat size <= i < Z.of_nat size ->
  axis_index size i = Ok (Z.to_nat (i mod Z.of_nat size)) /\
  (Z.to_nat (i mod Z.of_nat size) < size)%nat.
Proof.
  intros Hi. unfold axis_index.
  assert (Hj : (if i <? 0 then i + Z.of_nat size else i) = i mod Z.of_nat size).
  { destruct (Z.ltb_spec i 0).
    - rewrite <- (Z.mod_small (i + Z.of_nat size) (Z.of_nat size)) by lia.
      rewrite <- (Z.mod_add i 1 (Z.of_nat size)) by lia. f_equal. lia.
    - symmetry. apply Z.mod_small. lia. }
  rewrite Hj.
  assert (Hr : 0 <= i mod Z.of_nat size < Z.of_nat size)
    by (apply Z.mod_pos_bound; lia).
  destruct (Z.ltb_spec (i mod Z.of_nat size) 0); [lia|].
  destruct (Z.leb_spec (Z.of_nat size) (i mod Z.of_nat size)); [lia|].
  split; [done | lia].
Qed.

Lemma axis_index_invalid (size : nat) (i : Z) :
  ~ (- Z.of_nat size <= i < Z.of_nat size) ->
  axis_index size i = Err IndexError.
Proof.
  intros Hi. unfold axis_index.
  destruct (Z.ltb_spec i 0).
  - destruct (Z.ltb_spec (i + Z.of_nat size) 0); [done | lia].
  - destruct (Z.ltb_spec i 0); [lia|].
    destruct (Z.leb_spec (Z.of_nat size) i); [done | lia].
Qed.

(** One assignment into the first row not yet written. *)
Lemma setitem_next (ncols : nat) (v c : Z) (done rest : list (list Z))
    (row : list Z) :
  setitem (done ++ row :: rest) ncols (Z.of_nat (length done)) c v
  = (j ← axis_index ncols c; Ok (done ++ <[j := v]> row :: rest)).
Proof.
  unfold setitem.
  destruct (axis_index_valid (length (done ++ row :: rest))
              (Z.of_nat (length done))) as [-> _].
  { rewrite length_app. simpl. lia. }
  rewrite Z.mod_small by (rewrite length_app; simpl; lia).
  rewrite Nat2Z.id. simpl. unfold mbind at 1, result_bind.
  destruct (axis_index ncols c) as [j|e]; [|done]. simpl.
  unfold mbind, result_bind. f_equal.
  rewrite <- (Nat.add_0_r (length done)). by rewrite alter_app_r.
Qed.

(** Assigning along [np.arange]: with every column index valid, row [k]
    gets its entry at column [cols[k]] set and nothing else changes. *)
Lemma setitems_rows (ncols : nat) (v : Z) (cols : list Z) :
  forall done todo : list (list Z),
    length todo = length cols ->
    Forall (fun c => - Z.of_nat ncols <= c < Z.of_nat ncols) cols ->
    setitems (done ++ todo) ncols
      (zip (Z.of_nat <$> seq (length done) (length cols)) cols) v
    = Ok (done ++ zip_with
                    (fun row c => <[Z.to_nat (c mod Z.of_nat ncols) := v]> row)
                    todo cols).
Proof.
  induction cols as [|c cs IH]; intros done todo Hlen Hvalid.
  - destruct todo; [done | discriminate].
  - destruct todo as [|row rest]; [discriminate|].
    apply Forall_cons in Hvalid as [Hc Hcs].
    simpl. rewrite setitem_next.
    destruct (axis_index_valid ncols c Hc) as [-> _].
    unfold mbind, result_bind.
    specialize (IH (done ++ [<[Z.to_nat (c mod Z.of_nat ncols) := v]> row]) rest).
    rewrite length_app in IH. simpl in IH.
    rewrite Nat.add_1_r, <- !app_assoc in IH. simpl in IH.
    apply IH; [by injection Hlen | done].
Qed.

(** One column index out of range makes the whole assignment an
    [IndexError]. *)
Lemma setitems_rows_err (ncols : nat) (v : Z) (cols : list Z) :
  forall done todo : list (list Z),
    length todo = length cols ->
    Exists (fun c => ~ (- Z.of_nat ncols <= c < Z.of_nat ncols)) cols ->
    setitems (done ++ todo) ncols
      (zip (Z.of_nat <$> seq (length done) (length cols)) cols) v
    = Err IndexError.
Proof.
  induction cols as [|c cs IH]; intros done todo Hlen Hbad.
  - by apply Exists_nil in Hbad.
  - destruct todo as [|row rest]; [discriminate|].
    simpl. rewrite setitem_next.
    destruct (decide (- Z.of_nat ncols <= c < Z.of_nat ncols)) as [Hc|Hc].
    + destruct (axis_index_valid ncols c Hc) as [-> _].
      unfold mbind, result_bind.
      specialize (IH (done ++ [<[Z.to_nat (c mod Z.of_nat ncols) := v]> row]) rest).
      rewrite length_app in IH. simpl in IH.
      rewrite Nat.add_1_r, <- !app_assoc in IH. simpl in IH.
      apply IH; [by injection Hlen|].
      apply Exists_cons in Hbad as [Hbad|Hbad]; done.
    + by rewrite (axis_index_invalid ncols c Hc).
Qed.

Lemma zip_with_zeros (ncols : nat) (cols : list Z) :
  zip_with (fun row c => <[Z.to_nat (c mod Z.of_nat ncols) := 1]> row)
    (replicate (length cols) (replicate ncols 0)) cols
  = (fun c => unit_row ncols (Z.to_nat (c mod Z.of_nat ncols))) <$> cols.
Proof. induction cols as [|c cs IH]; [done|]. simpl. by rewrite IH. Qed.

(** The encoding cell in closed form, for a non-empty array with maximum
    [mx]: [ValueError] if the column count [mx + 1] wraps to a negative
    number, [IndexError] if a label is outside the columns, and otherwise
    one unit row per label. *)
Lemma one_hot_result (bits : Z) (target : list Z) (mx : Z) :
  amax target = Ok mx ->
  one_hot bits target =
    if wrap bits (mx + 1) <? 0 then Err ValueError
    else if decide (Forall (fun c => - wrap bits (mx + 1) <= c
                                     < wrap bits (mx + 1)) target)
    then Ok ((fun c => unit_row (Z.to_nat (wrap bits (mx + 1)))
                         (Z.to_nat (c mod wrap bits (mx + 1)))) <$> target)
    else Err IndexError.
Proof.
  intros Hmx. unfold one_hot. rewrite Hmx. simpl.
  unfold mbind at 1, result_bind. unfold zeros.
  set (m := wrap bits (mx + 1)).
  destruct (Z.ltb_spec m 0) as [Hm|Hm]; [done|].
  unfold mbind, result_bind. unfold arange.
  change (replicate (length target) (replicate (Z.to_nat m) 0))
    with ([] ++ replicate (length target) (replicate (Z.to_nat m) 0)).
  change (seq 0 (length target)) with (seq (length (@nil (list Z))) (length target)).
  case_decide as Hall.
  - rewrite setitems_rows.
    + simpl. rewrite zip_with_zeros. by rewrite Z2Nat.id by lia.
    + by rewrite length_replicate.
    + by rewrite Z2Nat.id by lia.
  - apply setitems_rows_err.
    + by rewrite length_replicate.
    + apply not_Forall_Exists in Hall; [|intros c; apply _].
      by rewrite Z2Nat.id by lia.
Qed.

(** For labels that are non-negative and below the top of the integer
    range, the column count is [mx + 1] and each unit row has its [1] at
    the label itself. *)
Lemma one_hot_fmap (bits : Z) (target : list Z) (mx : Z) :
  amax target = Ok mx ->
  Forall (fun c => 0 <= c < 2 ^ (bits - 1) - 1) target ->
  one_hot bits target
  = Ok ((fun c => unit_row (Z.to_nat (mx + 1)) (Z.to_nat c)) <$> target).
Proof.
  intros Hmx Hrange. rewrite (one_hot_result bits target mx Hmx).
  destruct (amax_spec target mx Hmx) as [Hin Hle].
  rewrite Forall_forall in Hrange, Hle.
  assert (Hw : wrap bits (mx + 1) = mx + 1).
  { apply wrap_small. specialize (Hrange mx Hin). lia. }
  rewrite Hw.
  destruct (Z.ltb_spec (mx + 1) 0) as [Hneg|_].
  { specialize (Hrange mx Hin). lia. }
  rewrite decide_True.
  - f_equal. apply list_fmap_ext. intros i c Hc.
    apply list_elem_of_lookup_2 in Hc.
    specialize (Hrange c Hc). specialize (Hle c Hc).
    by rewrite Z.mod_small by lia.
  - apply Forall_forall. intros c Hc.
    specialize (Hrange c Hc). specialize (Hle c Hc). lia.
Qed.

Lemma one_hot_Ok_amax (bits : Z) (target : list Z) (M : list (list Z)) :
  one_hot bits target = Ok M -> exists mx, amax target = Ok mx.
Proof. destruct target; [discriminate | eauto]. Qed.

Lemma unit_row_length (ncols j : nat) : length (unit_row ncols j) = ncols.
Proof. unfold unit_row. by rewrite length_insert, length_replicate. Qed.

Lemma unit_row_lookup (ncols j k : nat) :
  (j < ncols)%nat -> (k < ncols)%nat ->
  unit_row ncols j !! k = Some (if decide (k = j) then 1 else 0).
Proof.
  intros Hj Hk. unfold unit_row. case_decide as Hkj.
  - subst k. apply list_lookup_insert_eq. by rewrite length_replicate.
  - rewrite list_lookup_insert_ne by done. by apply lookup_replicate_2.
Qed.




(** X9.  Whatever the labels, negative ones included: if the encoding cell
    returns, it returns one row per label, all rows have the same length,
    and every row holds a single [1] among [0]s. *)
Theorem one_hot_rows (bits : Z) (target : list Z) (M : list (list Z)) :
  one_hot bits target = Ok M ->
  length M = length target /\
  exists ncols : nat,
    Forall (fun row =>
              length row = ncols /\
              exists j, (j < ncols)%nat /\
                forall k, (k < ncols)%nat ->
                          row !! k = Some (if decide (k = j) then 1 else 0)) M.
Proof.
  intros HM. destruct (one_hot_Ok_amax _ _ _ HM) as [mx Hmx].
  rewrite (one_hot_result bits target mx Hmx) in HM.
  set (m := wrap bits (mx + 1)) in *.
  destruct (Z.ltb_spec m 0) as [Hm|Hm]; [discriminate|].
  case_decide as Hall; [|discriminate]. injection HM as <-.
  split; [by rewrite length_fmap|]. exists (Z.to_nat m).
  apply Forall_fmap. eapply Forall_impl; [exact Hall|].
  intros c Hc. cbv beta in Hc |- *. split; [apply unit_row_length|].
  assert (Hr : 0 <= c mod m < m) by (apply Z.mod_pos_bound; lia).
  exists (Z.to_nat (c mod m)). split; [lia|].
  intros k Hk. apply unit_row_lookup; lia.
Qed.

Lemma one_hot_rows_witness :
  one_hot 64 [2; -1] = Ok [[0; 0; 1]; [0; 0; 1]] /\
  length [[0; 0; 1]; [0; 0; 1]] = length [2; -1] /\
  exists ncols : nat,
    Forall (fun row =>
              length row = ncols /\
              exists j, (j < ncols)%nat /\
                forall k, (k < ncols)%nat ->
                          row !! k = Some (if decide (k = j) then 1 else 0))
      [[0; 0; 1]; [0; 0; 1]].
Proof.
  split; [reflexivity|].
  exact (one_hot_rows 64 [2; -1] [[0; 0; 1]; [0; 0; 1]] eq_refl).
Defined.



Lemma unit_row_inj (ncols a b : nat) :
  (a < ncols)%nat -> (b < ncols)%nat ->
  unit_row ncols a = unit_row ncols b -> a = b.
Proof.
  intros Ha Hb Heq. apply (f_equal (.!! a)) in Heq.
  rewrite !unit_row_lookup in Heq by done.
  rewrite decide_True in Heq by done. by case_decide.
Qed.

Lemma fmap_inj_Forall {A B : Type} (f : A -> B) (P : A -> Prop) :
  (forall a b, P a -> P b -> f a = f b -> a = b) ->
  forall l1 l2, Forall P l1 -> Forall P l2 -> f <$> l1 = f <$> l2 -> l1 = l2.
Proof.
  intros Hinj. induction l1 as [|a l1 IH]; intros [|b l2] H1 H2 Heq;
    try done.
  apply Forall_cons in H1 as [Ha H1]. apply Forall_cons in H2 as [Hb H2].
  injection Heq as Hab Hrest. f_equal; [by apply Hinj | by apply IH].
Qed.

(** A non-empty array of labels in range, encoded with the column count of
    maximum [mx]: that is its encoding exactly if [mx] is its own
    maximum. *)
Lemma one_hot_width (bits : Z) (labels : list Z) (mx : Z) :
  labels <> [] -> 0 <= mx ->
  Forall (fun c => 0 <= c < 2 ^ (bits - 1) - 1) labels ->
  one_hot bits labels
  = Ok ((fun c => unit_row (Z.to_nat (mx + 1)) (Z.to_nat c)) <$> labels)
  <-> amax labels = Ok mx.
Proof.
  intros Hne Hmx Hrange. split.
  - destruct (amax_nonempty labels Hne) as [my Hmy].
    rewrite (one_hot_fmap bits labels my Hmy Hrange).
    destruct (amax_spec labels my Hmy) as [Hin _].
    rewrite Forall_forall in Hrange. specialize (Hrange my Hin).
    cbv beta in Hrange.
    destruct labels as [|c rest]; [done|]. intros [= Hrow _].
    apply (f_equal length) in Hrow. rewrite !unit_row_length in Hrow.
    rewrite Hmy. f_equal. lia.
  - intros Hmy. by apply one_hot_fmap.
Qed.

(** X11.  On non-negative labels the encoding loses nothing: two label
    arrays with the same encoding are equal. *)
Theorem one_hot_inj (bits : Z) (t1 t2 : list Z) (M : list (list Z)) :
  Forall (fun c => 0 <= c < 2 ^ (bits - 1) - 1) t1 ->
  Forall (fun c => 0 <= c < 2 ^ (bits - 1) - 1) t2 ->
  one_hot bits t1 = Ok M -> one_hot bits t2 = Ok M -> t1 = t2.
Proof.
  intros Hr1 Hr2 H1 H2.
  destruct (one_hot_Ok_amax _ _ _ H1) as [mx1 Hmx1].
  destruct (one_hot_Ok_amax _ _ _ H2) as [mx2 Hmx2].
  rewrite (one_hot_fmap bits t1 mx1 Hmx1 Hr1) in H1.
  rewrite (one_hot_fmap bits t2 mx2 Hmx2 Hr2) in H2.
  injection H1 as <-. injection H2 as H2.
  destruct (amax_spec t1 mx1 Hmx1) as [Hin1 Hle1].
  destruct (amax_spec t2 mx2 Hmx2) as [Hin2 Hle2].
  assert (Hpos1 : 0 <= mx1).
  { rewrite Forall_forall in Hr1. specialize (Hr1 mx1 Hin1). cbv beta in Hr1. lia. }
  assert (Hpos2 : 0 <= mx2).
  { rewrite Forall_forall in Hr2. specialize (Hr2 mx2 Hin2). cbv beta in Hr2. lia. }
  assert (Hmx : mx2 = mx1).
  { destruct t1 as [|c1 r1]; [by apply elem_of_nil in Hin1|].
    destruct t2 as [|c2 r2]; [by apply elem_of_nil in Hin2|].
    injection H2 as Hrow _. apply (f_equal length) in Hrow.
    rewrite !unit_row_length in Hrow. lia. }
  subst mx2. symmetry.
  apply (fmap_inj_Forall
           (fun c => unit_row (Z.to_nat (mx1 + 1)) (Z.to_nat c))
           (fun c => 0 <= c <= mx1)); [| | |done].
  - intros a b Ha Hb Hab. apply unit_row_inj in Hab; lia.
  - rewrite Forall_forall in Hr2 |- *. intros c Hc.
    rewrite Forall_forall in Hle2.
    specialize (Hr2 c Hc). specialize (Hle2 c Hc). cbv beta in Hr2, Hle2. lia.
  - rewrite Forall_forall in Hr1 |- *. intros c Hc.
    rewrite Forall_forall in Hle1.
    specialize (Hr1 c Hc). specialize (Hle1 c Hc). cbv beta in Hr1, Hle1. lia.
Qed.

Lemma one_hot_inj_witness :
  Forall (fun c => 0 <= c < 2 ^ (64 - 1) - 1) [2; 0] /\
  one_hot 64 [2; 0] = Ok [[0; 0; 1]; [1; 0; 0]] /\
  [2; 0] = [2; 0].
Proof.
  assert (H : Forall (fun c => 0 <= c < 2 ^ (64 - 1) - 1) [2; 0])
    by (apply (bool_decide_unpack _); by vm_compute).
  split; [exact H|]. split; [reflexivity|].
  exact (one_hot_inj 64 [2; 0] [2; 0] [[0; 0; 1]; [1; 0; 0]] H H
           eq_refl eq_refl).
Defined.

(** X12.  Encoding and slicing.  For non-negative labels with encoding
    [M], a non-empty slice [target[:k]] (or [target[k:]]) has the encoding
    [M[:k]] (or [M[k:]]) exactly if the slice contains the largest label of
    the whole array; otherwise its own encoding has fewer columns. *)
Theorem one_hot_slices (bits : Z) (target : list Z) (k : nat)
    (M : list (list Z)) :
  Forall (fun c => 0 <= c < 2 ^ (bits - 1) - 1) target ->
  one_hot bits target = Ok M ->
  (take k target <> [] ->
   (one_hot bits (take k target) = Ok (take k M)
    <-> amax (take k target) = amax target)) /\
  (drop k target <> [] ->
   (one_hot bits (drop k target) = Ok (drop k M)
    <-> amax (drop k target) = amax target)).
Proof.
  intros Hrange HM.
  destruct (one_hot_Ok_amax _ _ _ HM) as [mx Hmx].
  rewrite (one_hot_fmap bits target mx Hmx Hrange) in HM. injection HM as <-.
  destruct (amax_spec target mx Hmx) as [Hin _].
  assert (Hpos : 0 <= mx).
  { rewrite Forall_forall in Hrange. specialize (Hrange mx Hin).
    cbv beta in Hrange. lia. }
  rewrite Hmx, <- fmap_take, <- fmap_drop.
  split; intros Hne; apply one_hot_width; try done.
  - by apply Forall_take.
  - by apply Forall_drop.
Qed.

Lemma one_hot_slices_witness :
  Forall (fun c => 0 <= c < 2 ^ (64 - 1) - 1) [0; 1; 0; 1] /\
  one_hot 64 [0; 1; 0; 1] = Ok [[1; 0]; [0; 1]; [1; 0]; [0; 1]] /\
  (take 2 [0; 1; 0; 1] <> [] ->
   (one_hot 64 (take 2 [0; 1; 0; 1])
    = Ok (take 2 [[1; 0]; [0; 1]; [1; 0]; [0; 1]])
    <-> amax (take 2 [0; 1; 0; 1]) = amax [0; 1; 0; 1])) /\
  (drop 2 [0; 1; 0; 1] <> [] ->
   (one_hot 64 (drop 2 [0; 1; 0; 1])
    = Ok (drop 2 [[1; 0]; [0; 1]; [1; 0]; [0; 1]])
    <-> amax (drop 2 [0; 1; 0; 1]) = amax [0; 1; 0; 1])).
Proof.
  assert (H : Forall (fun c => 0 <= c < 2 ^ (64 - 1) - 1) [0; 1; 0; 1])
    by (apply (bool_decide_unpack _); by vm_compute).
  assert (E : one_hot 64 [0; 1; 0; 1] = Ok [[1; 0]; [0; 1]; [1; 0]; [0; 1]])
    by reflexivity.
  split; [exact H|]. split; [exact E|].
  exact (one_hot_slices 64 [0; 1; 0; 1] 2 [[1; 0]; [0; 1]; [1; 0]; [0; 1]] H E).
Defined.

(** X13.  Tiling before encoding.  For non-negative labels [t] with
    encoding [M], the labels [np.tile(t, 2)] are encoded as [M] followed by
    [M]: the slices [[:len(t)]] and [[len(t):]] of the encoded array, which
    the notebook hands to its two fits, are both [M]. *)
Theorem one_hot_tile_halves (bits : Z) (t : list Z) (M : list (list Z)) :
  Forall (fun c => 0 <= c < 2 ^ (bits - 1) - 1) t ->
  one_hot bits t = Ok M ->
  exists MM, one_hot bits (tile t 2) = Ok MM /\
             take (length t) MM = M /\ drop (length t) MM = M.
Proof.
  intros Hrange HM.
  destruct (one_hot_Ok_amax _ _ _ HM) as [mx Hmx].
  rewrite (one_hot_fmap bits t mx Hmx Hrange) in HM. injection HM as <-.
  exists (((fun c => unit_row (Z.to_nat (mx + 1)) (Z.to_nat c)) <$> t)
          ++ ((fun c => unit_row (Z.to_nat (mx + 1)) (Z.to_nat c)) <$> t)).
  assert (Htile : tile t 2 = t ++ t).
  { unfold tile. simpl. by rewrite app_nil_r. }
  rewrite Htile. split; [|split].
  - rewrite <- fmap_app. apply one_hot_fmap; [|by apply Forall_app].
    destruct (amax_nonempty (t ++ t)) as [my Hmy].
    { destruct t; [discriminate | done]. }
    rewrite Hmy. f_equal. apply (amax_unique (t ++ t) t my mx Hmy Hmx).
    intros y. rewrite elem_of_app. tauto.
  - apply take_app_length'. by rewrite length_fmap.
  - apply drop_app_length'. by rewrite length_fmap.
Qed.

Lemma one_hot_tile_halves_witness :
  Forall (fun c => 0 <= c < 2 ^ (64 - 1) - 1) [0; 1] /\
  one_hot 64 [0; 1] = Ok [[1; 0]; [0; 1]] /\
  exists MM, one_hot 64 (tile [0; 1] 2) = Ok MM /\
             take (length [0; 1]) MM = [[1; 0]; [0; 1]] /\
             drop (length [0; 1]) MM = [[1; 0]; [0; 1]].
Proof.
  assert (H : Forall (fun c => 0 <= c < 2 ^ (64 - 1) - 1) [0; 1])
    by (apply (bool_decide_unpack _); by vm_compute).
  assert (E : one_hot 64 [0; 1] = Ok [[1; 0]; [0; 1]]) by reflexivity.
  split; [exact H|]. split; [exact E|].
  exact (one_hot_tile_halves 64 [0; 1] [[1; 0]; [0; 1]] H E).
Defined.

End NumpyFacts.
